(** * Shallow embedding of three pieces of the tree

    - [Mentor]: the example key-value register file ([mentor.c],
      [include/linux/mentor.h]);
    - [Kallsyms]: the generator of the longest possible symbol
      ([kernel/kallsyms_gen_longest.c]);
    - [JumpLabel]: the x86 static-branch call site and its [__jump_table]
      record ([asm/jump_label.h]).

    Machine integers are [Z] with the wrap-around written out, arrays are
    lists indexed with stdpp's lookup and insert, and code that threads
    the register file, the lock or the output stream is written in a small
    state-and-failure monad. *)

From Stdlib Require Import ZArith Lia List String Ascii.
From stdpp Require Import base tactics option list.

Local Open Scope Z_scope.

(** ** Fixed-width unsigned integers *)

Definition wrap (bits : Z) (z : Z) : Z := z mod 2 ^ bits.

Definition in_range (bits : Z) (z : Z) : Prop := 0 <= z < 2 ^ bits.

Definition u8 : Z -> Z := wrap 8.
Definition u32 : Z -> Z := wrap 32.
Definition is_u8 : Z -> Prop := in_range 8.
Definition is_u32 : Z -> Prop := in_range 32.

(** ** State passing with failure

    [None] is a run with no result: it does not return, or it leaves the
    behaviour the language defines. *)

Section StateFail.
Context {S : Type}.

Definition M (A : Type) : Type := S -> option (A * S).

Definition ret {A} (a : A) : M A := fun s => Some (a, s).

Definition bind {A B} (m : M A) (k : A -> M B) : M B :=
  fun s => match m s with
           | Some (a, s') => k a s'
           | None => None
           end.

Definition fail {A} : M A := fun _ => None.
End StateFail.

Arguments M : clear implicits.

Notation "x <- m ;; k" := (bind m (fun x => k))
  (at level 100, m at next level, right associativity).
Notation "m ;;; k" := (bind m (fun _ => k))
  (at level 100, right associativity).

(** ** The mentor register file *)

Module Mentor.

Definition MENTOR_TOTAL_WRITES_ADDR : Z := 0x05.

(** The file-scope objects of [mentor.c] ([mentor_lock], [mentor_data]),
    the interrupt flag that [spin_lock_irqsave] saves and clears, and
    the kernel log that [printk] appends to. *)
Record state : Type := State {
  mentor_data : list Z;
  mentor_lock : bool;
  irqs_enabled : bool;
  kmsg : list string
}.

(** [static u32 mentor_data[MENTOR_TOTAL_WRITES_ADDR + 1] =
    { 40, 41, 42, 43, 44, 0 };] with the lock released. *)
Definition init (irqs : bool) : state :=
  State [40; 41; 42; 43; 44; 0] false irqs [].

Definition spin_lock_irqsave : M state bool := fun s =>
  if mentor_lock s then None
  else Some (irqs_enabled s, State (mentor_data s) true false (kmsg s)).

Definition spin_unlock_irqrestore (flags : bool) : M state unit := fun s =>
  Some (tt, State (mentor_data s) false flags (kmsg s)).

Definition printk (msg : string) : M state unit := fun s =>
  Some (tt, State (mentor_data s) (mentor_lock s) (irqs_enabled s)
                  (kmsg s ++ [msg])).

(** [mentor_data[i]] as an rvalue and as an lvalue; an index outside
    the array has no defined result. *)
Definition load (i : Z) : M state Z := fun s =>
  if i <? 0 then None
  else match mentor_data s !! Z.to_nat i with
       | Some v => Some (v, s)
       | None => None
       end.

Definition store (i v : Z) : M state unit := fun s =>
  if (i <? 0) || (Z.of_nat (length (mentor_data s)) <=? i) then None
  else Some (tt, State (<[Z.to_nat i := v]> (mentor_data s))
                       (mentor_lock s) (irqs_enabled s) (kmsg s)).

(** [KERN_CRIT "mentor: undefined behavior!\n"]: the level prefix of
  [linux/kern_levels.h] (start of header, then the level digit), the
  text and a line feed. *)
Definition KERN_CRIT : string := String (ascii_of_nat 1) "2".

Definition undefined_behavior_msg : string :=
  KERN_CRIT ++ "mentor: undefined behavior!" ++ String (ascii_of_nat 10) "".

Definition mentor_simulate_undefined_behavior : M state Z :=
  printk undefined_behavior_msg ;;;
  ret 0xFFFFFFFF.

Definition __mentor_read (addr : Z) : M state Z :=
  if addr >? MENTOR_TOTAL_WRITES_ADDR
  then mentor_simulate_undefined_behavior
  else
    flags <- spin_lock_irqsave ;;
    result <- load addr ;;
    spin_unlock_irqrestore flags ;;;
    ret result.

Definition mentor_write (addr value : Z) : M state unit :=
  if addr >=? MENTOR_TOTAL_WRITES_ADDR
  then mentor_simulate_undefined_behavior ;;; ret tt
  else
    flags <- spin_lock_irqsave ;;
    store addr value ;;;
    total <- load MENTOR_TOTAL_WRITES_ADDR ;;
    store MENTOR_TOTAL_WRITES_ADDR (u32 (total + 1)) ;;;
    spin_unlock_irqrestore flags.

(** The public macro [mentor_read(addr)]. *)
Definition mentor_read : Z -> M state Z := __mentor_read.

(** What every state between two calls satisfies: the array has its
    declared six cells, each holds a [u32], and the lock is free. *)
Record wf (s : state) : Prop := Wf {
  wf_length : length (mentor_data s) = 6%nat;
  wf_cells : Forall is_u32 (mentor_data s);
  wf_unlocked : mentor_lock s = false
}.

End Mentor.

(** ** The generator of the longest symbol *)

Module Kallsyms.

(** The process's standard output, a stream of characters. *)
Definition stdout : Type := list ascii.

(** [sizeof] of a [const char[]] initialised from a literal: its characters
    and the terminating NUL. *)
Definition sizeof (s : string) : Z := Z.of_nat (String.length s) + 1.

(** [size_t] of the host the generator is built for. *)
Definition size_t : Z -> Z := wrap 64.

(** [printf(fmt)] with no further argument: ordinary characters are
    copied, [%%] writes one [%], and any other conversion asks for an
    argument that was not passed, which has no defined result. *)
Fixpoint format (fmt : list ascii) : option (list ascii) :=
  match fmt with
  | [] => Some []
  | "%"%char :: "%"%char :: rest => option_map (cons "%"%char) (format rest)
  | "%"%char :: _ => None
  | c :: rest => option_map (cons c) (format rest)
  end.

Definition printf (fmt : string) : M stdout Z := fun out =>
  match format (list_ascii_of_string fmt) with
  | Some cs => Some (Z.of_nat (length cs), out ++ cs)
  | None => None
  end.

Definition putchar (c : ascii) : M stdout Z := fun out =>
  Some (Z.of_nat (nat_of_ascii c), out ++ [c]).

(** [a[i]] for a character array initialised from [s]; index
    [String.length s] is the terminating NUL. *)
Definition index (s : string) (i : Z) : M stdout ascii := fun out =>
  if i <? 0 then None
  else match (list_ascii_of_string s ++ [zero]) !! Z.to_nat i with
       | Some c => Some (c, out)
       | None => None
       end.

Definition start : string := "start_of_the_longest_symbol_possible__".
Definition end_ : string := "__end_of_the_longest_symbol_possible".
Definition pattern : string := "123456789_".

(** The [for] loop of [main], with [n] the iterations left
    ([pattern_length - i]): each one writes
    [pattern[i % (sizeof(pattern) - 1)]] and increments [i]. *)
Fixpoint fill (n : nat) (i : Z) : M stdout unit :=
  match n with
  | O => ret tt
  | Datatypes.S n' =>
      c <- index pattern (i mod (sizeof pattern - 1)) ;;
      putchar c ;;;
      fill n' (size_t (i + 1))
  end.

(** What [n] iterations that start at [i] are expected to write:
    character [k] is [pattern[(i + k) mod 10]]. *)
Definition filler (n i : nat) : list ascii :=
  map (fun k => nth ((i + k) mod 10) (list_ascii_of_string pattern) zero)
      (seq 0 n).

(** [main], for a given value of the macro [KSYM_NAME_LEN] of
    [linux/kallsyms.h] (an [int] constant, converted to [size_t] where it
    meets [sizeof]). A value that fails the [_Static_assert] gives no
    program, hence no run. *)
Definition main (KSYM_NAME_LEN : Z) : M stdout Z :=
  if size_t (KSYM_NAME_LEN - 1) >=? (sizeof start - 1) + (sizeof end_ - 1) then
    printf start ;;;
    let pattern_length :=
      size_t ((KSYM_NAME_LEN - 1) - (sizeof start - 1) - (sizeof end_ - 1)) in
    fill (Z.to_nat pattern_length) 0 ;;;
    printf end_ ;;;
    ret 0
  else fail.

End Kallsyms.

(** ** The x86 static-branch call site *)

Module JumpLabel.

(** The build options the header depends on: the [#ifdef] of the file, and
    the word size that [asm/asm.h] and [asm/nops.h] select on. *)
Record config : Type := Config {
  CONFIG_HAVE_JUMP_LABEL_HACK : bool;
  CONFIG_X86_64 : bool
}.

Definition ptr_bytes (cfg : config) : Z := if CONFIG_X86_64 cfg then 8 else 4.
Definition ptr_bits (cfg : config) : Z := 8 * ptr_bytes cfg.

(** *** Assembler text *)

(** The only label the [asm goto] statements of the file name. *)
Inductive label : Type := l_yes.

(** Operands of a directive: [.], the local label [1b], a C label
    ([%l[l_yes]]), the [n]-th input printed as a bare constant ([%cn]),
    sums and differences. *)
Inductive expr : Type :=
| Dot
| Back1
| Lbl (l : label)
| Opnd (n : nat)
| Plus (a b : expr)
| Minus (a b : expr).

Inductive stmt : Type :=
| Local1
| Jmp (target : expr)
| Byte (bs : list Z)
| Pushsection (name : string)
| Popsection
| Balign (n : Z)
| Long (e : expr)
| Quad (e : expr).

(** Modelled from the spec: [_ASM_ALIGN] and [_ASM_PTR] come from
    [asm/asm.h], which is not among the sources; they are the alignment
    and the data directive of one pointer-width word. *)
Definition _ASM_ALIGN (cfg : config) : stmt := Balign (ptr_bytes cfg).

Definition _ASM_PTR (cfg : config) (e : expr) : stmt :=
  if CONFIG_X86_64 cfg then Quad e else Long e.

(** Modelled from the spec: [BYTES_NOP5] comes from [asm/nops.h], which is
    not among the sources; it is the five-byte no-effect instruction of
    the word size. *)
Definition BYTES_NOP5 (cfg : config) : list Z :=
  if CONFIG_X86_64 cfg
  then [0x0f; 0x1f; 0x44; 0x00; 0x00]
  else [0x3e; 0x8d; 0x74; 0x26; 0x00].

Definition JUMP_TABLE_ENTRY (cfg : config) (l_yes key branch : expr)
  : list stmt :=
  [ Pushsection "__jump_table";
    _ASM_ALIGN cfg;
    Long (Minus Back1 Dot);
    Long (Minus l_yes Dot);
    _ASM_PTR cfg (Minus (Plus key branch) Dot);
    Popsection ].

Definition ARCH_STATIC_BRANCH_ASM (cfg : config) (l_yes key branch : expr)
  : list stmt :=
  if CONFIG_HAVE_JUMP_LABEL_HACK cfg
  then Local1 :: Jmp l_yes :: JUMP_TABLE_ENTRY cfg l_yes key branch
  else Local1 :: Byte (BYTES_NOP5 cfg) :: JUMP_TABLE_ENTRY cfg l_yes key branch.

(** *** The inlined C functions *)

(** [asm goto (template : : "i" (in0), "i" (in1) : : labels)]. *)
Record asm_goto : Type := AsmGoto {
  template : list stmt;
  inputs : list Z;
  labels : list label
}.

Inductive cstmt : Type :=
| Asm (a : asm_goto)
| Return (b : bool)
| CLabel (l : label).

Definition arch_static_branch (cfg : config) (key : Z) (branch : bool)
  : list cstmt :=
  if CONFIG_HAVE_JUMP_LABEL_HACK cfg
  then [ Asm (AsmGoto
                (ARCH_STATIC_BRANCH_ASM cfg (Lbl l_yes) (Opnd 0) (Opnd 1))
                [key; Z.lor 2 (Z.b2z branch)] [l_yes]);
         Return false;
         CLabel l_yes;
         Return true ]
  else [ Asm (AsmGoto
                (ARCH_STATIC_BRANCH_ASM cfg (Lbl l_yes) (Opnd 0) (Opnd 1))
                [key; Z.b2z branch] [l_yes]);
         Return false;
         CLabel l_yes;
         Return true ].

Definition arch_static_branch_jump (cfg : config) (key : Z) (branch : bool)
  : list cstmt :=
  [ Asm (AsmGoto
           (Local1 :: Jmp (Lbl l_yes)
              :: JUMP_TABLE_ENTRY cfg (Lbl l_yes) (Opnd 0) (Opnd 1))
           [key; Z.b2z branch] [l_yes]);
    Return false;
    CLabel l_yes;
    Return true ].

(** *** The assembler *)

Definition signed (bits z : Z) : Z :=
  let w := wrap bits z in
  if w <? 2 ^ (bits - 1) then w else w - 2 ^ bits.

Definition fits_signed (bits z : Z) : bool :=
  (- 2 ^ (bits - 1) <=? z) && (z <? 2 ^ (bits - 1)).

(** What ends up in a section: an instruction kept symbolic with the size
    of the encoding chosen for it, raw bytes, or a datum with the signed
    value stored in it. *)
Inductive item : Type :=
| I_jmp (target size : Z)
| I_bytes (bs : list Z)
| I_data (size value : Z).

Definition item_size (i : item) : Z :=
  match i with
  | I_jmp _ n => n
  | I_bytes bs => Z.of_nat (length bs)
  | I_data n _ => n
  end.

Record emitted : Type := Emitted {
  e_section : string;
  e_addr : Z;
  e_item : item
}.

(** Current section, the [.pushsection] stack, one location counter per
    section, the last definition of local label [1], and the output. *)
Record asm_state : Type := AsmState {
  cur : string;
  stack : list string;
  loc : string -> Z;
  back1 : option Z;
  out : list emitted
}.

Definition dot (st : asm_state) : Z := loc st (cur st).

Definition advance (st : asm_state) (n : Z) : string -> Z :=
  fun sec => if String.eqb sec (cur st) then dot st + n else loc st sec.

Definition emit (st : asm_state) (i : item) : asm_state :=
  AsmState (cur st) (stack st) (advance st (item_size i)) (back1 st)
           (out st ++ [Emitted (cur st) (dot st) i]).

Section Assemble.
Variable cfg : config.
(** The final address of each C label, and the inputs of the statement. *)
Variable label_addr : label -> Z.
Variable ins : list Z.

Fixpoint eval (st : asm_state) (e : expr) : option Z :=
  match e with
  | Dot => Some (dot st)
  | Back1 => back1 st
  | Lbl l => Some (label_addr l)
  | Opnd n => ins !! n
  | Plus a b =>
      match eval st a, eval st b with
      | Some x, Some y => Some (x + y)
      | _, _ => None
      end
  | Minus a b =>
      match eval st a, eval st b with
      | Some x, Some y => Some (x - y)
      | _, _ => None
      end
  end.

(** A field of [size] bytes holding [v]: address arithmetic wraps at the
    pointer width; a narrower field must hold the value as it is, or the
    link fails with a truncated relocation. *)
Definition store_value (size v : Z) : option Z :=
  if size <? ptr_bytes cfg
  then if fits_signed (8 * size) v then Some v else None
  else Some (signed (8 * size) v).

(** [jmp] to a label takes the two-byte form when the displacement fits
    in a byte and the five-byte form otherwise. *)
Definition assemble_jmp (st : asm_state) (target : Z) : option asm_state :=
  if fits_signed 8 (target - (dot st + 2))
  then Some (emit st (I_jmp target 2))
  else match store_value 4 (target - (dot st + 5)) with
       | Some _ => Some (emit st (I_jmp target 5))
       | None => None
       end.

Definition assemble_data (st : asm_state) (size : Z) (e : expr)
  : option asm_state :=
  match eval st e with
  | Some v =>
      match store_value size v with
      | Some w => Some (emit st (I_data size w))
      | None => None
      end
  | None => None
  end.

Definition step (st : asm_state) (s : stmt) : option asm_state :=
  match s with
  | Local1 =>
      Some (AsmState (cur st) (stack st) (loc st) (Some (dot st)) (out st))
  | Jmp e =>
      match eval st e with
      | Some t => assemble_jmp st t
      | None => None
      end
  | Byte bs => Some (emit st (I_bytes bs))
  | Pushsection name =>
      Some (AsmState name (cur st :: stack st) (loc st) (back1 st) (out st))
  | Popsection =>
      match stack st with
      | prev :: rest =>
          Some (AsmState prev rest (loc st) (back1 st) (out st))
      | [] => None
      end
  | Balign n =>
      if n <=? 0 then None
      else Some (AsmState (cur st) (stack st) (advance st ((- dot st) mod n))
                          (back1 st) (out st))
  | Long e => assemble_data st 4 e
  | Quad e => assemble_data st 8 e
  end.

Fixpoint assemble (st : asm_state) (ss : list stmt) : option asm_state :=
  match ss with
  | [] => Some st
  | s :: rest =>
      match step st s with
      | Some st' => assemble st' rest
      | None => None
      end
  end.

End Assemble.

(** The assembler about to expand an [asm goto] in [.text] at [site], with
    the location counter of [__jump_table] at [table]. *)
Definition start_state (site table : Z) : asm_state :=
  AsmState ".text" []
           (fun sec => if String.eqb sec "__jump_table" then table else site)
           None [].

Definition assemble_asm (cfg : config) (label_addr : label -> Z)
  (site table : Z) (a : asm_goto) : option asm_state :=
  assemble cfg label_addr (inputs a) (start_state site table) (template a).

Definition section_items (sec : string) (st : asm_state) : list emitted :=
  List.filter (fun e => String.eqb (e_section e) sec) (out st).

(** *** Running the inlined functions *)

(** How control leaves an [asm goto]: past its end, or to one of the
    labels it lists. *)
Inductive asm_exit : Type :=
| FallThrough
| Goto (l : label).

Definition label_eqb (a b : label) : bool :=
  match a, b with
  | l_yes, l_yes => true
  end.

(** Executing the instruction that currently sits at the site of the
    statement: a no-op runs into the code that follows, a jump lands on
    the label that has its target address; anything else is not a run of
    this statement. *)
Definition exec_site (cfg : config) (label_addr : label -> Z) (a : asm_goto)
  (installed : item) : option asm_exit :=
  match installed with
  | I_jmp target _ =>
      match List.find (fun l => label_addr l =? target) (labels a) with
      | Some l => Some (Goto l)
      | None => None
      end
  | I_bytes bs =>
      if bool_decide (bs = BYTES_NOP5 cfg) then Some FallThrough else None
  | I_data _ _ => None
  end.

(** The statements that follow label [l] in a function body. *)
Fixpoint after_label (l : label) (body : list cstmt) : option (list cstmt) :=
  match body with
  | [] => None
  | CLabel l' :: rest =>
      if label_eqb l l' then Some rest else after_label l rest
  | _ :: rest => after_label l rest
  end.

(** The body [whole] run from [pc] on, one statement per unit of fuel. *)
Fixpoint run (cfg : config) (label_addr : label -> Z) (installed : item)
  (whole : list cstmt) (fuel : nat) (pc : list cstmt) : option bool :=
  match fuel with
  | O => None
  | Datatypes.S fuel' =>
      match pc with
      | [] => None
      | Return b :: _ => Some b
      | CLabel _ :: rest => run cfg label_addr installed whole fuel' rest
      | Asm a :: rest =>
          match exec_site cfg label_addr a installed with
          | Some FallThrough => run cfg label_addr installed whole fuel' rest
          | Some (Goto l) =>
              match after_label l whole with
              | Some rest' => run cfg label_addr installed whole fuel' rest'
              | None => None
              end
          | None => None
          end
      end
  end.

(** A call of an inlined function whose site holds [installed]. No
    statement is run twice, so the length of the body is fuel enough. *)
Definition call (cfg : config) (label_addr : label -> Z) (installed : item)
  (body : list cstmt) : option bool :=
  run cfg label_addr installed body (length body) body.

(** The [asm goto] a function body starts with. *)
Definition site_asm (body : list cstmt) : option asm_goto :=
  match body with
  | Asm a :: _ => Some a
  | _ => None
  end.

(** What the compiler leaves at the site: the [.text] output of the
    statement. *)
Definition compiled_site (cfg : config) (label_addr : label -> Z)
  (site table : Z) (body : list cstmt) : option (list item) :=
  match site_asm body with
  | Some a =>
      match assemble_asm cfg label_addr site table a with
      | Some st => Some (map e_item (section_items ".text" st))
      | None => None
      end
  | None => None
  end.

(** The record the statement adds to [__jump_table]. *)
Definition jump_entry (cfg : config) (label_addr : label -> Z)
  (site table : Z) (body : list cstmt) : option (list emitted) :=
  match site_asm body with
  | Some a =>
      match assemble_asm cfg label_addr site table a with
      | Some st => Some (section_items "__jump_table" st)
      | None => None
      end
  | None => None
  end.

(** How control leaves the statement a body starts with. *)
Definition site_exit (cfg : config) (label_addr : label -> Z)
  (installed : item) (body : list cstmt) : option asm_exit :=
  match site_asm body with
  | Some a => exec_site cfg label_addr a installed
  | None => None
  end.

(** Where [_ASM_ALIGN] puts the record when the location counter of the
    table is at [table]. *)
Definition entry_addr (cfg : config) (table : Z) : Z :=
  table + (- table) mod ptr_bytes cfg.

(** The site, its label and the record are within reach of each other:
    the three 32-bit displacements of the statement can be stored. *)
Definition links (cfg : config) (label_addr : label -> Z) (site table : Z)
  : Prop :=
  fits_signed 32 (label_addr l_yes - (site + 5)) = true /\
  fits_signed 32 (site - entry_addr cfg table) = true /\
  fits_signed 32 (label_addr l_yes - (entry_addr cfg table + 4)) = true.

(** The address a field stands for: its own address plus what it stores,
    in pointer arithmetic. *)
Definition rederive (cfg : config) (e : emitted) : option Z :=
  match e_item e with
  | I_data _ v => Some (wrap (ptr_bits cfg) (e_addr e + v))
  | _ => None
  end.

(** The value of a call: how it leaves the statement decides it. *)
Definition branch_value (e : asm_exit) : bool :=
  match e with
  | FallThrough => false
  | Goto l_yes => true
  end.

(** The size the assembler gives the [jmp] of a site. *)
Definition jmp_size (site target : Z) : Z :=
  if fits_signed 8 (target - (site + 2)) then 2 else 5.

(** The second operand of the statement of [arch_static_branch]. *)
Definition branch_flags (cfg : config) (branch : bool) : Z :=
  if CONFIG_HAVE_JUMP_LABEL_HACK cfg then Z.lor 2 (Z.b2z branch)
  else Z.b2z branch.

(** The instruction [arch_static_branch] is expected to leave at its
    site. *)
Definition site_item (cfg : config) (label_addr : label -> Z) (site : Z)
  : item :=
  if CONFIG_HAVE_JUMP_LABEL_HACK cfg
  then I_jmp (label_addr l_yes) (jmp_size site (label_addr l_yes))
  else I_bytes (BYTES_NOP5 cfg).

(** The record expected for a site at [site] with label, key and flags,
    when the location counter of the table is at [table]. *)
Definition entry_of (cfg : config) (label_addr : label -> Z)
  (site table key flags : Z) : list emitted :=
  let a := entry_addr cfg table in
  [ Emitted "__jump_table" a (I_data 4 (site - a));
    Emitted "__jump_table" (a + 4) (I_data 4 (label_addr l_yes - (a + 4)));
    Emitted "__jump_table" (a + 8)
      (I_data (ptr_bytes cfg)
              (signed (ptr_bits cfg) (key + flags - (a + 8)))) ].

(** The same output loaded [d] bytes further. *)
Definition relocate (d : Z) (e : emitted) : emitted :=
  Emitted (e_section e) (e_addr e + d) (e_item e).

(** Every field of a record is one pointer wide. *)
Definition pointer_width_fields (cfg : config) (es : list emitted) : Prop :=
  Forall (fun e => item_size (e_item e) = ptr_bytes cfg) es.

(** What the key field of a record stores. *)
Definition key_field (es : list emitted) : option Z :=
  match es with
  | [_; _; Emitted _ _ (I_data _ v)] => Some v
  | _ => None
  end.

(** *** Live text, the entry-size oracle and the patch of one site *)

(** The executable region as bytes, addressed from its start. *)
Abbreviation text := (list Z) (only parsing).

Definition in_text (mem : text) (addr : Z) (n : nat) : bool :=
  (0 <=? addr) && (addr + Z.of_nat n <=? Z.of_nat (length mem)).

Definition read (mem : text) (addr : Z) (n : nat) : option (list Z) :=
  if in_text mem addr n
  then Some (take n (drop (Z.to_nat addr) mem))
  else None.

Definition text_poke (mem : text) (addr : Z) (bs : list Z) : option text :=
  if in_text mem addr (length bs)
  then Some (take (Z.to_nat addr) mem ++ bs
               ++ drop (Z.to_nat addr + length bs) mem)
  else None.

Fixpoint le_bytes (n : nat) (v : Z) : list Z :=
  match n with
  | O => []
  | Datatypes.S n' => v mod 256 :: le_bytes n' (v / 256)
  end.

(** Modelled from the spec: the patch engine and the oracle
    [arch_jump_entry_size] are only declared in the sources. The two
    encodings a site holds are the padding and the transfer that
    replaces it: [BYTES_NOP5] and [jmp rel32] (opcode [0xe9], then the
    displacement from the end of the instruction, little-endian). *)
Inductive encoding : Type :=
| Padding
| Transfer (rel : Z).

Definition JMP32_INSN_OPCODE : Z := 0xe9.

Definition encode (cfg : config) (e : encoding) : list Z :=
  match e with
  | Padding => BYTES_NOP5 cfg
  | Transfer rel => JMP32_INSN_OPCODE :: le_bytes 4 (wrap 32 rel)
  end.

(** Modelled from the spec: the oracle recognises what is at the site by
    its lead bytes, the whole padding or the opcode of the transfer, and
    fails on anything else. *)
Definition arch_jump_entry_size (cfg : config) (mem : text) (site : Z)
  : option Z :=
  match read mem site 5 with
  | Some bs =>
      if bool_decide (bs = BYTES_NOP5 cfg) then Some 5
      else match bs with
           | op :: _ => if op =? JMP32_INSN_OPCODE then Some 5 else None
           | [] => None
           end
  | None => None
  end.

(** Modelled from the spec: one site is patched by asking the oracle how
    many bytes are installed, giving up before any write when it fails
    or when the new encoding has another length, and writing the new
    bytes over the old ones otherwise. *)
Definition patch_site (cfg : config) (mem : text) (site : Z) (e : encoding)
  : option text :=
  match arch_jump_entry_size cfg mem site with
  | Some n =>
      if n =? Z.of_nat (length (encode cfg e))
      then text_poke mem site (encode cfg e)
      else None
  | None => None
  end.

(** The encoding of a site of key state [enabled] whose taken label is
    [target]. *)
Definition site_encoding (site target : Z) (enabled : bool) : encoding :=
  if enabled then Transfer (target - (site + 5)) else Padding.

End JumpLabel.

(** * Facts

    ** Fixed-width integers *)

Lemma wrap_in_range bits z : 0 <= bits -> in_range bits (wrap bits z).
Proof.
  intros Hb. unfold in_range, wrap.
  apply Z.mod_pos_bound, Z.pow_pos_nonneg; lia.
Qed.

Lemma wrap_small bits z : in_range bits z -> wrap bits z = z.
Proof. intros H. unfold wrap. now apply Z.mod_small. Qed.

Lemma u32_is_u32 z : is_u32 (u32 z).
Proof. apply wrap_in_range. lia. Qed.

(** ** The mentor register file *)

Section MentorFacts.
Import Mentor.

Lemma init_wf irqs : wf (init irqs).
Proof.
  split; [reflexivity | | reflexivity].
  unfold init; simpl. repeat constructor; unfold is_u32, in_range; lia.
Qed.

Lemma load_in_bounds (s : state) (i : Z) (x : Z) :
  0 <= i -> mentor_data s !! Z.to_nat i = Some x -> load i s = Some (x, s).
Proof.
  intros Hi Hx. unfold load.
  destruct (Z.ltb_spec i 0); [lia |]. now rewrite Hx.
Qed.

Lemma store_in_bounds (s : state) (i v : Z) :
  0 <= i < Z.of_nat (length (mentor_data s)) ->
  store i v s = Some (tt, State (<[Z.to_nat i := v]> (mentor_data s))
                               (mentor_lock s) (irqs_enabled s) (kmsg s)).
Proof.
  intros Hi. unfold store.
  destruct (Z.ltb_spec i 0); [lia |].
  destruct (Z.leb_spec (Z.of_nat (length (mentor_data s))) i); [lia |].
  reflexivity.
Qed.

Lemma cell_exists (s : state) (i : nat) :
  wf s -> (i < 6)%nat -> exists x, mentor_data s !! i = Some x /\ is_u32 x.
Proof.
  intros [Hlen Hcells _] Hi.
  destruct (lookup_lt_is_Some_2 (mentor_data s) i) as [x Hx]; [lia |].
  exists x. split; [exact Hx |].
  eapply Forall_lookup_1; eauto.
Qed.

Lemma mentor_write_run (s : state) (a v : Z) :
  wf s -> 0 <= a < MENTOR_TOTAL_WRITES_ADDR ->
  exists total,
    mentor_data s !! 5%nat = Some total /\
    mentor_write a v s =
      Some (tt, State (<[5%nat := u32 (total + 1)]>
                         (<[Z.to_nat a := v]> (mentor_data s)))
                      false (irqs_enabled s) (kmsg s)).
Proof.
  intros Hwf Ha. unfold MENTOR_TOTAL_WRITES_ADDR in *.
  destruct (cell_exists s 5 Hwf) as (total & Htotal & _); [lia |].
  exists total. split; [exact Htotal |].
  destruct Hwf as [Hlen _ Hlock].
  unfold mentor_write, MENTOR_TOTAL_WRITES_ADDR.
  destruct (Z.geb_spec a 5); [lia |].
  unfold bind at 1. unfold spin_lock_irqsave. rewrite Hlock.
  unfold bind at 1. rewrite store_in_bounds by (simpl; lia). simpl mentor_data.
  unfold bind at 1.
  erewrite load_in_bounds; [| lia |]; cycle 1.
  { simpl. rewrite list_lookup_insert_ne by lia. exact Htotal. }
  unfold bind at 1. rewrite store_in_bounds; cycle 1.
  { simpl. rewrite length_insert. lia. }
  reflexivity.
Qed.

Lemma mentor_read_run (s : state) (a : Z) (x : Z) :
  mentor_lock s = false -> 0 <= a <= MENTOR_TOTAL_WRITES_ADDR ->
  mentor_data s !! Z.to_nat a = Some x ->
  __mentor_read a s = Some (x, s).
Proof.
  intros Hlock Ha Hx. unfold __mentor_read.
  destruct (Z.gtb_spec a MENTOR_TOTAL_WRITES_ADDR); [lia |].
  unfold bind at 1. unfold spin_lock_irqsave. rewrite Hlock.
  unfold bind at 1. erewrite load_in_bounds; [| lia | exact Hx].
  unfold bind, spin_unlock_irqrestore, ret. simpl.
  destruct s; simpl in *. now subst.
Qed.

Lemma mentor_write_wf (s s' : state) (a v : Z) :
  wf s -> is_u32 v -> mentor_write a v s = Some (tt, s') -> wf s'.
Proof.
  intros Hwf Hv. unfold mentor_write.
  destruct (Z.geb_spec a MENTOR_TOTAL_WRITES_ADDR) as [Hge | Hlt].
  - intros [= <-]. destruct Hwf. now split.
  - destruct (Z.ltb_spec a 0) as [Hneg | Hpos].
    + unfold bind at 1. unfold spin_lock_irqsave.
      rewrite (wf_unlocked s Hwf). unfold bind at 1. unfold store. simpl.
      destruct (Z.ltb_spec a 0); [discriminate | lia].
    + destruct (mentor_write_run s a v Hwf) as (total & Htotal & Hrun);
        [lia |].
      unfold mentor_write in Hrun.
      destruct (Z.geb_spec a MENTOR_TOTAL_WRITES_ADDR); [lia |].
      rewrite Hrun. intros [= <-]. destruct Hwf as [Hlen Hcells _].
      split; simpl.
      * now rewrite !length_insert.
      * apply Forall_insert; [apply Forall_insert; assumption |].
        apply u32_is_u32.
      * reflexivity.
Qed.

(** C8: a write to an address below [MENTOR_TOTAL_WRITES_ADDR] returns,
    stores the value in that cell, adds one to the [u32] write counter in
    cell [0x05], leaves every other cell (and the lock, the interrupt flag
    and the log) as it was, and a read of the address then returns the
    value. *)
Theorem mentor_write_stores_and_counts (s : state) (a v : Z) :
  wf s -> 0 <= a < MENTOR_TOTAL_WRITES_ADDR ->
  exists s' total,
    mentor_write a v s = Some (tt, s') /\
    mentor_data s' !! Z.to_nat a = Some v /\
    mentor_data s !! Z.to_nat MENTOR_TOTAL_WRITES_ADDR = Some total /\
    mentor_data s' !! Z.to_nat MENTOR_TOTAL_WRITES_ADDR
      = Some (u32 (total + 1)) /\
    (forall i : nat,
        i <> Z.to_nat a -> i <> Z.to_nat MENTOR_TOTAL_WRITES_ADDR ->
        mentor_data s' !! i = mentor_data s !! i) /\
    mentor_lock s' = mentor_lock s /\
    irqs_enabled s' = irqs_enabled s /\
    kmsg s' = kmsg s /\
    __mentor_read a s' = Some (v, s').
Proof.
  intros Hwf Ha.
  destruct (mentor_write_run s a v Hwf Ha) as (total & Htotal & Hrun).
  pose proof (wf_length s Hwf) as Hlen.
  unfold MENTOR_TOTAL_WRITES_ADDR in *.
  change (Z.to_nat 5) with 5%nat.
  assert (Hcell : (<[5%nat := u32 (total + 1)]>
                     (<[Z.to_nat a := v]> (mentor_data s))) !! Z.to_nat a
                  = Some v).
  { rewrite list_lookup_insert_ne by lia.
    apply list_lookup_insert_eq. lia. }
  eexists _, total. split; [exact Hrun |]. simpl.
  split; [exact Hcell |].
  split; [exact Htotal |].
  split; [apply list_lookup_insert_eq; rewrite length_insert; lia |].
  split.
  { intros i Hia Hi5. now rewrite !list_lookup_insert_ne by congruence. }
  split; [symmetry; apply (wf_unlocked s Hwf) |].
  split; [reflexivity |]. split; [reflexivity |].
  apply mentor_read_run;
    [reflexivity | unfold MENTOR_TOTAL_WRITES_ADDR; lia | exact Hcell].
Qed.

Lemma mentor_write_stores_and_counts_witness :
  exists s' total,
    mentor_write 2 7 (init true) = Some (tt, s') /\
    mentor_data s' !! 2%nat = Some 7 /\
    mentor_data (init true) !! 5%nat = Some total /\
    mentor_data s' !! 5%nat = Some (u32 (total + 1)) /\
    (forall i : nat, i <> 2%nat -> i <> 5%nat ->
        mentor_data s' !! i = mentor_data (init true) !! i) /\
    mentor_lock s' = false /\
    irqs_enabled s' = true /\
    kmsg s' = [] /\
    __mentor_read 2 s' = Some (7, s').
Proof.
  apply (mentor_write_stores_and_counts (init true) 2 7).
  - split; [reflexivity | | reflexivity].
    repeat constructor; unfold is_u32, in_range; simpl; lia.
  - unfold MENTOR_TOTAL_WRITES_ADDR. lia.
Defined.

(** C9: a read above [MENTOR_TOTAL_WRITES_ADDR] returns [0xFFFFFFFF] and a
    write at or above it returns nothing; both leave every cell, the write
    counter included, as it was and only add a line to the log. Address
    [0x05] itself is read like any cell and gives the write counter, but
    is among the rejected writes. *)
Theorem mentor_out_of_range_rejected (s : state) (ar aw v : Z) :
  wf s -> MENTOR_TOTAL_WRITES_ADDR < ar -> MENTOR_TOTAL_WRITES_ADDR <= aw ->
  let logged :=
    State (mentor_data s) (mentor_lock s) (irqs_enabled s)
          (kmsg s ++ [undefined_behavior_msg]) in
  __mentor_read ar s = Some (0xFFFFFFFF, logged) /\
  mentor_write aw v s = Some (tt, logged) /\
  mentor_write MENTOR_TOTAL_WRITES_ADDR v s = Some (tt, logged) /\
  exists total,
    mentor_data s !! Z.to_nat MENTOR_TOTAL_WRITES_ADDR = Some total /\
    __mentor_read MENTOR_TOTAL_WRITES_ADDR s = Some (total, s).
Proof.
  intros Hwf Har Haw logged.
  split; [| split; [| split]].
  - unfold __mentor_read.
    destruct (Z.gtb_spec ar MENTOR_TOTAL_WRITES_ADDR); [reflexivity | lia].
  - unfold mentor_write.
    destruct (Z.geb_spec aw MENTOR_TOTAL_WRITES_ADDR); [reflexivity | lia].
  - reflexivity.
  - destruct (cell_exists s 5 Hwf) as (total & Htotal & _); [lia |].
    exists total. split; [exact Htotal |].
    apply mentor_read_run;
      [apply (wf_unlocked s Hwf) | unfold MENTOR_TOTAL_WRITES_ADDR; lia
      | exact Htotal].
Qed.

Lemma mentor_out_of_range_rejected_witness :
  let s := init true in
  let logged := State [40; 41; 42; 43; 44; 0] false true
                      [undefined_behavior_msg] in
  __mentor_read 6 s = Some (0xFFFFFFFF, logged) /\
  mentor_write 5 9 s = Some (tt, logged) /\
  mentor_write MENTOR_TOTAL_WRITES_ADDR 9 s = Some (tt, logged) /\
  exists total,
    mentor_data s !! Z.to_nat MENTOR_TOTAL_WRITES_ADDR = Some total /\
    __mentor_read MENTOR_TOTAL_WRITES_ADDR s = Some (total, s).
Proof.
  apply (mentor_out_of_range_rejected (init true) 6 5 9).
  - split; [reflexivity | | reflexivity].
    repeat constructor; unfold is_u32, in_range; simpl; lia.
  - unfold MENTOR_TOTAL_WRITES_ADDR. lia.
  - unfold MENTOR_TOTAL_WRITES_ADDR. lia.
Defined.
End MentorFacts.

(** ** The generator of the longest symbol *)

Section KallsymsFacts.
Import Kallsyms.

Lemma pattern_nth_end (j : nat) :
  (j < 10)%nat ->
  (list_ascii_of_string pattern ++ [zero]) !! j
  = Some (nth j (list_ascii_of_string pattern) zero).
Proof.
  intros Hj. do 10 (destruct j as [| j]; [reflexivity |]). lia.
Qed.

Lemma index_pattern (out : stdout) (i : Z) :
  0 <= i ->
  index pattern (i mod (sizeof pattern - 1)) out
  = Some (nth (Z.to_nat i mod 10) (list_ascii_of_string pattern) zero, out).
Proof.
  intros Hi. unfold index.
  change (sizeof pattern - 1) with 10.
  pose proof (Z.mod_pos_bound i 10 ltac:(lia)) as Hm.
  destruct (Z.ltb_spec (i mod 10) 0); [lia |].
  replace (Z.to_nat (i mod 10)) with (Z.to_nat i mod 10)%nat
    by (rewrite Z2Nat.inj_mod by lia; reflexivity).
  rewrite (pattern_nth_end (Z.to_nat i mod 10))
    by (apply Nat.mod_upper_bound; lia).
  reflexivity.
Qed.

Lemma fill_spec (n : nat) : forall (i : nat) (out : stdout),
  Z.of_nat i + Z.of_nat n < 2 ^ 64 ->
  fill n (Z.of_nat i) out = Some (tt, out ++ filler n i).
Proof.
  induction n as [| n IH]; intros i out Hb.
  - unfold filler. simpl. now rewrite app_nil_r.
  - cbn [fill]. unfold bind at 1.
    rewrite index_pattern by lia. rewrite Nat2Z.id.
    unfold bind at 1. unfold putchar at 1.
    replace (size_t (Z.of_nat i + 1)) with (Z.of_nat (Datatypes.S i))
      by (unfold size_t; rewrite wrap_small; [lia | unfold in_range; lia]).
    rewrite IH by lia. f_equal. f_equal.
    rewrite <- app_assoc. f_equal.
    unfold filler. cbn [seq map]. rewrite Nat.add_0_r. f_equal.
    rewrite <- seq_shift, map_map.
    apply map_ext. intros k. now rewrite Nat.add_succ_comm.
Qed.

Lemma filler_length (n i : nat) : length (filler n i) = n.
Proof. unfold filler. now rewrite length_map, length_seq. Qed.

Lemma pattern_nth (j : nat) :
  (j < 10)%nat ->
  list_ascii_of_string pattern !! j
  = Some (nth j (list_ascii_of_string pattern) zero).
Proof.
  intros Hj. do 10 (destruct j as [| j]; [reflexivity |]). lia.
Qed.

Lemma filler_lookup (n i k : nat) :
  (k < n)%nat ->
  filler n i !! k = list_ascii_of_string pattern !! ((i + k) mod 10)%nat.
Proof.
  intros Hk. unfold filler.
  rewrite list_lookup_fmap, lookup_seq_lt by exact Hk.
  rewrite pattern_nth by (apply Nat.mod_upper_bound; lia).
  reflexivity.
Qed.

(** C10: for a [KSYM_NAME_LEN] that passes the [_Static_assert], [main]
    returns 0 and writes [KSYM_NAME_LEN - 1] characters: the prefix, then
    a filler of the remaining length whose [i]-th character is
    [pattern[i mod 10]], then the suffix. *)
Theorem main_writes_longest_symbol (KSYM_NAME_LEN : Z) :
  (sizeof start - 1) + (sizeof end_ - 1) <= KSYM_NAME_LEN - 1 ->
  KSYM_NAME_LEN <= 2 ^ 31 - 1 ->
  let n := Z.to_nat (KSYM_NAME_LEN - 1 - 38 - 36) in
  let output :=
    list_ascii_of_string "start_of_the_longest_symbol_possible__"
      ++ filler n 0
      ++ list_ascii_of_string "__end_of_the_longest_symbol_possible" in
  main KSYM_NAME_LEN [] = Some (0, output) /\
  Z.of_nat (length output) = KSYM_NAME_LEN - 1 /\
  length (filler n 0) = n /\
  forall i : nat, (i < n)%nat ->
    filler n 0 !! i = list_ascii_of_string "123456789_" !! (i mod 10)%nat.
Proof.
  change (sizeof start - 1) with 38. change (sizeof end_ - 1) with 36.
  intros Hassert Hint n output.
  split; [| split; [| split]].
  - unfold main.
    change (sizeof start - 1) with 38. change (sizeof end_ - 1) with 36.
    unfold size_t.
    rewrite !wrap_small by (unfold in_range; lia).
    destruct (Z.geb_spec (KSYM_NAME_LEN - 1) (38 + 36)); [| lia].
    unfold bind at 1.
    change (printf start []) with
      (Some (38, list_ascii_of_string start) : option (Z * stdout)).
    cbv beta iota.
    unfold bind at 1.
    rewrite (fill_spec _ 0) by (rewrite Z2Nat.id; simpl; lia).
    cbv beta iota.
    unfold bind at 1. unfold printf.
    change (format (list_ascii_of_string end_))
      with (Some (list_ascii_of_string end_)).
    cbv beta iota. unfold ret, output.
    now rewrite <- app_assoc.
  - unfold output. rewrite !length_app, filler_length.
    change (length (list_ascii_of_string
                      "start_of_the_longest_symbol_possible__")) with 38%nat.
    change (length (list_ascii_of_string
                      "__end_of_the_longest_symbol_possible")) with 36%nat.
    unfold n. lia.
  - apply filler_length.
  - intros i Hi. now rewrite filler_lookup.
Qed.

Lemma main_writes_longest_symbol_witness :
  let n := 437%nat in
  let output :=
    list_ascii_of_string "start_of_the_longest_symbol_possible__"
      ++ filler n 0
      ++ list_ascii_of_string "__end_of_the_longest_symbol_possible" in
  main 512 [] = Some (0, output) /\
  Z.of_nat (length output) = 511 /\
  length (filler n 0) = n /\
  forall i : nat, (i < n)%nat ->
    filler n 0 !! i = list_ascii_of_string "123456789_" !! (i mod 10)%nat.
Proof.
  apply (main_writes_longest_symbol 512).
  - vm_compute. discriminate.
  - vm_compute. discriminate.
Defined.
End KallsymsFacts.

(** ** The static-branch call site and its record *)

Section JumpLabelFacts.
Import JumpLabel.

Lemma exec_site_labels cfg ly a a' installed :
  labels a = labels a' ->
  exec_site cfg ly a installed = exec_site cfg ly a' installed.
Proof. intros H. unfold exec_site. now rewrite H. Qed.

Lemma call_static_branch cfg ly installed key branch :
  call cfg ly installed (arch_static_branch cfg key branch)
  = option_map branch_value
      (site_exit cfg ly installed (arch_static_branch cfg key branch)).
Proof.
  unfold arch_static_branch, call, site_exit.
  destruct (CONFIG_HAVE_JUMP_LABEL_HACK cfg); cbn [length site_asm run];
    (match goal with |- context [exec_site ?c ?l ?a ?i] =>
       destruct (exec_site c l a i) as [[| []] |] end); reflexivity.
Qed.

Lemma call_static_branch_jump cfg ly installed key branch :
  call cfg ly installed (arch_static_branch_jump cfg key branch)
  = option_map branch_value
      (site_exit cfg ly installed (arch_static_branch_jump cfg key branch)).
Proof.
  unfold arch_static_branch_jump, call, site_exit. cbn [length site_asm run].
  match goal with |- context [exec_site ?c ?l ?a ?i] =>
    destruct (exec_site c l a i) as [[| []] |] end; reflexivity.
Qed.

Lemma site_exit_nop cfg ly key branch :
  site_exit cfg ly (I_bytes (BYTES_NOP5 cfg))
    (arch_static_branch cfg key branch) = Some FallThrough /\
  site_exit cfg ly (I_bytes (BYTES_NOP5 cfg))
    (arch_static_branch_jump cfg key branch) = Some FallThrough.
Proof.
  unfold site_exit, arch_static_branch, arch_static_branch_jump.
  destruct (CONFIG_HAVE_JUMP_LABEL_HACK cfg); cbn [site_asm exec_site];
    rewrite bool_decide_eq_true_2 by reflexivity; split; reflexivity.
Qed.

Lemma site_exit_jmp cfg ly key branch n :
  site_exit cfg ly (I_jmp (ly l_yes) n) (arch_static_branch cfg key branch)
    = Some (Goto l_yes) /\
  site_exit cfg ly (I_jmp (ly l_yes) n)
    (arch_static_branch_jump cfg key branch) = Some (Goto l_yes).
Proof.
  unfold site_exit, arch_static_branch, arch_static_branch_jump.
  destruct (CONFIG_HAVE_JUMP_LABEL_HACK cfg);
    cbn [site_asm exec_site labels List.find];
    rewrite Z.eqb_refl; split; reflexivity.
Qed.

Lemma fits_signed_spec bits z :
  fits_signed bits z = true <-> - 2 ^ (bits - 1) <= z < 2 ^ (bits - 1).
Proof.
  unfold fits_signed. rewrite andb_true_iff, Z.leb_le, Z.ltb_lt. tauto.
Qed.

Lemma signed_fits bits z :
  0 < bits -> fits_signed bits z = true -> signed bits z = z.
Proof.
  intros Hb Hf. apply fits_signed_spec in Hf.
  assert (Hp : 2 ^ bits = 2 * 2 ^ (bits - 1)).
  { rewrite <- Z.pow_succ_r by lia. f_equal. lia. }
  assert (Hpos1 : 0 < 2 ^ (bits - 1)) by (apply Z.pow_pos_nonneg; lia).
  unfold signed, wrap. cbv zeta.
  destruct (Z.lt_ge_cases z 0) as [Hneg | Hpos].
  - replace (z mod 2 ^ bits) with (z + 2 ^ bits).
    + destruct (Z.ltb_spec (z + 2 ^ bits) (2 ^ (bits - 1))); lia.
    + apply Z.mod_unique with (q := -1); lia.
  - rewrite Z.mod_small by lia.
    destruct (Z.ltb_spec z (2 ^ (bits - 1))); lia.
Qed.

Lemma store_value_fits cfg v :
  fits_signed 32 v = true -> store_value cfg 4 v = Some v.
Proof.
  intros Hf. unfold store_value, ptr_bytes.
  destruct (CONFIG_X86_64 cfg);
    cbn [Z.ltb Z.compare Pos.compare Pos.compare_cont].
  - change (8 * 4) with 32. now rewrite Hf.
  - change (8 * 4) with 32. now rewrite signed_fits by (lia || assumption).
Qed.

Lemma store_value_ptr cfg v :
  store_value cfg (ptr_bytes cfg) v = Some (signed (ptr_bits cfg) v).
Proof.
  unfold store_value, ptr_bits. now rewrite Z.ltb_irrefl.
Qed.

Lemma step_ASM_PTR cfg ly ins st e :
  step cfg ly ins st (_ASM_PTR cfg e)
  = assemble_data cfg ly ins st (ptr_bytes cfg) e.
Proof. unfold _ASM_PTR, ptr_bytes. now destruct (CONFIG_X86_64 cfg). Qed.

Lemma ptr_bytes_pos cfg : (ptr_bytes cfg <=? 0) = false.
Proof. unfold ptr_bytes. now destruct (CONFIG_X86_64 cfg). Qed.

Ltac asm_simpl :=
  cbn [assemble step assemble_data eval dot loc cur advance emit item_size
       stack out back1 String.eqb Ascii.eqb Bool.eqb lookup list_lookup].

Lemma assemble_JUMP_TABLE_ENTRY cfg ly site table key flags
  (f : string -> Z) (l : list emitted) :
  f "__jump_table"%string = table ->
  fits_signed 32 (site - entry_addr cfg table) = true ->
  fits_signed 32 (ly l_yes - (entry_addr cfg table + 4)) = true ->
  exists st,
    assemble cfg ly [key; flags] (AsmState ".text" [] f (Some site) l)
      (JUMP_TABLE_ENTRY cfg (Lbl l_yes) (Opnd 0) (Opnd 1)) = Some st /\
    out st = l ++ entry_of cfg ly site table key flags.
Proof.
  intros <- Hs Hl. unfold JUMP_TABLE_ENTRY, _ASM_ALIGN.
  set (table := f "__jump_table"%string) in *.
  asm_simpl. rewrite ptr_bytes_pos. asm_simpl.
  fold table. fold (entry_addr cfg table).
  rewrite store_value_fits by exact Hs. asm_simpl.
  fold table. fold (entry_addr cfg table).
  rewrite store_value_fits by exact Hl.
  cbn [assemble]. rewrite step_ASM_PTR. asm_simpl.
  fold table. fold (entry_addr cfg table).
  rewrite store_value_ptr. asm_simpl.
  fold table. fold (entry_addr cfg table).
  eexists. split; [reflexivity |]. asm_simpl.
  rewrite <- !app_assoc. unfold entry_of. cbv zeta.
  replace (entry_addr cfg table + 4 + 4) with (entry_addr cfg table + 8)
    by lia.
  reflexivity.
Qed.

Lemma assemble_jmp_site cfg ly site table key flags :
  links cfg ly site table ->
  exists st,
    assemble cfg ly [key; flags] (start_state site table)
      (Local1 :: Jmp (Lbl l_yes)
         :: JUMP_TABLE_ENTRY cfg (Lbl l_yes) (Opnd 0) (Opnd 1)) = Some st /\
    out st = Emitted ".text" site (I_jmp (ly l_yes) (jmp_size site (ly l_yes)))
               :: entry_of cfg ly site table key flags.
Proof.
  intros (Hj & Hs & Hl). unfold start_state.
  cbn [assemble]. asm_simpl. unfold assemble_jmp, jmp_size. asm_simpl.
  destruct (fits_signed 8 (ly l_yes - (site + 2))).
  - apply (assemble_JUMP_TABLE_ENTRY cfg ly site table key flags _ [_]);
      [reflexivity | exact Hs | exact Hl].
  - rewrite store_value_fits by exact Hj.
    apply (assemble_JUMP_TABLE_ENTRY cfg ly site table key flags _ [_]);
      [reflexivity | exact Hs | exact Hl].
Qed.

Lemma assemble_nop_site cfg ly site table key flags :
  links cfg ly site table ->
  exists st,
    assemble cfg ly [key; flags] (start_state site table)
      (Local1 :: Byte (BYTES_NOP5 cfg)
         :: JUMP_TABLE_ENTRY cfg (Lbl l_yes) (Opnd 0) (Opnd 1)) = Some st /\
    out st = Emitted ".text" site (I_bytes (BYTES_NOP5 cfg))
               :: entry_of cfg ly site table key flags.
Proof.
  intros (Hj & Hs & Hl). unfold start_state.
  cbn [assemble]. asm_simpl.
  apply (assemble_JUMP_TABLE_ENTRY cfg ly site table key flags _ [_]);
    [reflexivity | exact Hs | exact Hl].
Qed.

Lemma assemble_static_branch cfg ly site table key branch :
  links cfg ly site table ->
  exists a st,
    site_asm (arch_static_branch cfg key branch) = Some a /\
    assemble_asm cfg ly site table a = Some st /\
    out st = Emitted ".text" site (site_item cfg ly site)
               :: entry_of cfg ly site table key (branch_flags cfg branch).
Proof.
  intros Hl. unfold arch_static_branch, ARCH_STATIC_BRANCH_ASM, site_item,
    branch_flags, assemble_asm.
  destruct (CONFIG_HAVE_JUMP_LABEL_HACK cfg) eqn:Hhack; cbn [site_asm].
  - destruct (assemble_jmp_site cfg ly site table key
                (Z.lor 2 (Z.b2z branch)) Hl) as (st & Hst & Hout).
    eexists _, st. split; [reflexivity |]. cbn [inputs template].
    now split.
  - destruct (assemble_nop_site cfg ly site table key (Z.b2z branch) Hl)
      as (st & Hst & Hout).
    eexists _, st. split; [reflexivity |]. cbn [inputs template].
    now split.
Qed.

Lemma assemble_static_branch_jump cfg ly site table key branch :
  links cfg ly site table ->
  exists a st,
    site_asm (arch_static_branch_jump cfg key branch) = Some a /\
    assemble_asm cfg ly site table a = Some st /\
    out st = Emitted ".text" site
               (I_jmp (ly l_yes) (jmp_size site (ly l_yes)))
               :: entry_of cfg ly site table key (Z.b2z branch).
Proof.
  intros Hl. unfold arch_static_branch_jump, assemble_asm. cbn [site_asm].
  destruct (assemble_jmp_site cfg ly site table key (Z.b2z branch) Hl)
    as (st & Hst & Hout).
  eexists _, st. split; [reflexivity |]. cbn [inputs template]. now split.
Qed.

Lemma jump_entry_static_branch cfg ly site table key branch :
  links cfg ly site table ->
  compiled_site cfg ly site table (arch_static_branch cfg key branch)
    = Some [site_item cfg ly site] /\
  jump_entry cfg ly site table (arch_static_branch cfg key branch)
    = Some (entry_of cfg ly site table key (branch_flags cfg branch)).
Proof.
  intros Hl.
  destruct (assemble_static_branch cfg ly site table key branch Hl)
    as (a & st & Ha & Hst & Hout).
  unfold compiled_site, jump_entry, section_items.
  rewrite Ha, Hst, Hout. split; reflexivity.
Qed.

Lemma jump_entry_static_branch_jump cfg ly site table key branch :
  links cfg ly site table ->
  compiled_site cfg ly site table (arch_static_branch_jump cfg key branch)
    = Some [I_jmp (ly l_yes) (jmp_size site (ly l_yes))] /\
  jump_entry cfg ly site table (arch_static_branch_jump cfg key branch)
    = Some (entry_of cfg ly site table key (Z.b2z branch)).
Proof.
  intros Hl.
  destruct (assemble_static_branch_jump cfg ly site table key branch Hl)
    as (a & st & Ha & Hst & Hout).
  unfold compiled_site, jump_entry, section_items.
  rewrite Ha, Hst, Hout. split; reflexivity.
Qed.

(** C1: a call of [arch_static_branch] or [arch_static_branch_jump]
    returns [false] exactly when control falls through its [asm goto] and
    [true] exactly when control leaves it for [l_yes], whatever the
    configuration, the call site's key and polarity, and the instruction
    installed at the site; with the padding installed the call returns
    [false], with the jump to [l_yes] installed it returns [true]. *)
Theorem static_branch_result (cfg : config) (ly : label -> Z)
  (installed : item) (key : Z) (branch : bool) (n : Z) :
  let f := arch_static_branch cfg key branch in
  let g := arch_static_branch_jump cfg key branch in
  (call cfg ly installed f = Some false
     <-> site_exit cfg ly installed f = Some FallThrough) /\
  (call cfg ly installed f = Some true
     <-> site_exit cfg ly installed f = Some (Goto l_yes)) /\
  (call cfg ly installed g = Some false
     <-> site_exit cfg ly installed g = Some FallThrough) /\
  (call cfg ly installed g = Some true
     <-> site_exit cfg ly installed g = Some (Goto l_yes)) /\
  call cfg ly (I_bytes (BYTES_NOP5 cfg)) f = Some false /\
  call cfg ly (I_bytes (BYTES_NOP5 cfg)) g = Some false /\
  call cfg ly (I_jmp (ly l_yes) n) f = Some true /\
  call cfg ly (I_jmp (ly l_yes) n) g = Some true.
Proof.
  intros f g. unfold f, g.
  rewrite !call_static_branch, !call_static_branch_jump.
  destruct (site_exit_nop cfg ly key branch) as [-> ->].
  destruct (site_exit_jmp cfg ly key branch n) as [-> ->].
  repeat split;
    try (match goal with |- context [site_exit ?c ?l ?i ?b] =>
           destruct (site_exit c l i b) as [[| []] |] end;
         cbn; congruence).
Qed.

(** C5: in a build the site of [arch_static_branch] has the one shape the
    flag selects, whatever the key, the polarity and the addresses: with
    [CONFIG_HAVE_JUMP_LABEL_HACK] a [jmp] to [l_yes], which leaves the
    statement for the label; without it the five-byte no-op, which falls
    through. *)
Theorem site_variant_selected_by_flag (cfg : config) (ly : label -> Z)
  (site table key : Z) (branch : bool) :
  links cfg ly site table ->
  let f := arch_static_branch cfg key branch in
  compiled_site cfg ly site table f
    = Some [if CONFIG_HAVE_JUMP_LABEL_HACK cfg
            then I_jmp (ly l_yes) (jmp_size site (ly l_yes))
            else I_bytes (BYTES_NOP5 cfg)] /\
  site_exit cfg ly (site_item cfg ly site) f
    = Some (if CONFIG_HAVE_JUMP_LABEL_HACK cfg
            then Goto l_yes else FallThrough).
Proof.
  intros Hl f. unfold f.
  destruct (jump_entry_static_branch cfg ly site table key branch Hl)
    as [-> _].
  unfold site_item.
  destruct (CONFIG_HAVE_JUMP_LABEL_HACK cfg) eqn:Hhack.
  - split; [reflexivity |]. apply site_exit_jmp.
  - split; [reflexivity |]. apply site_exit_nop.
Qed.

Lemma site_variant_selected_by_flag_witness :
  (compiled_site (Config true true) (fun _ => 0x1100) 0x1000 0x2000
     (arch_static_branch (Config true true) 0x3000 true)
   = Some [I_jmp 0x1100 5] /\
   site_exit (Config true true) (fun _ => 0x1100)
     (site_item (Config true true) (fun _ => 0x1100) 0x1000)
     (arch_static_branch (Config true true) 0x3000 true)
   = Some (Goto l_yes)) /\
  (compiled_site (Config false true) (fun _ => 0x1100) 0x1000 0x2000
     (arch_static_branch (Config false true) 0x3000 true)
   = Some [I_bytes [0x0f; 0x1f; 0x44; 0x00; 0x00]] /\
   site_exit (Config false true) (fun _ => 0x1100)
     (site_item (Config false true) (fun _ => 0x1100) 0x1000)
     (arch_static_branch (Config false true) 0x3000 true)
   = Some FallThrough).
Proof.
  split.
  - apply (site_variant_selected_by_flag (Config true true)
             (fun _ => 0x1100) 0x1000 0x2000 0x3000 true).
    repeat split; vm_compute; reflexivity.
  - apply (site_variant_selected_by_flag (Config false true)
             (fun _ => 0x1100) 0x1000 0x2000 0x3000 true).
    repeat split; vm_compute; reflexivity.
Defined.

Lemma ptr_bytes_cases cfg : ptr_bytes cfg = 4 \/ ptr_bytes cfg = 8.
Proof. unfold ptr_bytes. destruct (CONFIG_X86_64 cfg); auto. Qed.

Lemma ptr_bits_cases cfg : ptr_bits cfg = 32 \/ ptr_bits cfg = 64.
Proof. unfold ptr_bits. destruct (ptr_bytes_cases cfg) as [-> | ->]; auto. Qed.

Lemma entry_addr_aligned cfg table :
  entry_addr cfg table mod ptr_bytes cfg = 0.
Proof.
  unfold entry_addr.
  assert (ptr_bytes cfg <> 0) by (destruct (ptr_bytes_cases cfg); lia).
  rewrite Z.add_mod_idemp_r by assumption.
  replace (table + - table) with 0 by lia. now apply Z.mod_0_l.
Qed.

Lemma entry_addr_shift cfg table d :
  d mod ptr_bytes cfg = 0 ->
  entry_addr cfg (table + d) = entry_addr cfg table + d.
Proof.
  intros Hd.
  assert (Hp : ptr_bytes cfg <> 0) by (destruct (ptr_bytes_cases cfg); lia).
  apply Z.mod_divide in Hd; [| exact Hp]. destruct Hd as [q ->].
  unfold entry_addr.
  replace (- (table + q * ptr_bytes cfg))
    with (- table + (- q) * ptr_bytes cfg) by lia.
  rewrite Z.mod_add by exact Hp. lia.
Qed.

Lemma links_shift cfg ly site table d :
  d mod ptr_bytes cfg = 0 ->
  links cfg ly site table ->
  links cfg (fun l => ly l + d) (site + d) (table + d).
Proof.
  intros Hd (Hj & Hs & Hl). unfold links.
  rewrite entry_addr_shift by exact Hd.
  replace (ly l_yes + d - (site + d + 5)) with (ly l_yes - (site + 5)) by lia.
  replace (site + d - (entry_addr cfg table + d))
    with (site - entry_addr cfg table) by lia.
  replace (ly l_yes + d - (entry_addr cfg table + d + 4))
    with (ly l_yes - (entry_addr cfg table + 4)) by lia.
  auto.
Qed.

Lemma signed_congruent bits x :
  0 <= bits -> exists c, signed bits x = x + c * 2 ^ bits.
Proof.
  intros Hb. assert (Hm : 2 ^ bits <> 0) by (apply Z.pow_nonzero; lia).
  unfold signed, wrap. cbv zeta. rewrite Z.mod_eq by exact Hm.
  destruct (_ <? _).
  - exists (- (x / 2 ^ bits)). ring.
  - exists (- (x / 2 ^ bits) - 1). ring.
Qed.

Lemma wrap_add_signed bits y x :
  0 <= bits -> wrap bits (y + signed bits x) = wrap bits (y + x).
Proof.
  intros Hb. assert (Hm : 2 ^ bits <> 0) by (apply Z.pow_nonzero; lia).
  destruct (signed_congruent bits x Hb) as [c ->].
  unfold wrap. rewrite Z.add_assoc. now apply Z.mod_add.
Qed.

Lemma rederive_entry_of cfg ly site table key flags :
  map (rederive cfg) (entry_of cfg ly site table key flags)
  = [ Some (wrap (ptr_bits cfg) site);
      Some (wrap (ptr_bits cfg) (ly l_yes));
      Some (wrap (ptr_bits cfg) (key + flags)) ].
Proof.
  unfold entry_of, rederive. cbn [map e_item e_addr].
  rewrite wrap_add_signed by (destruct (ptr_bits_cases cfg); lia).
  set (a := entry_addr cfg table).
  replace (a + (site - a)) with site by lia.
  replace (a + 4 + (ly l_yes - (a + 4))) with (ly l_yes) by lia.
  replace (a + 8 + (key + flags - (a + 8))) with (key + flags) by lia.
  reflexivity.
Qed.

Lemma entry_of_shift cfg ly site table key flags d :
  d mod ptr_bytes cfg = 0 ->
  entry_of cfg (fun l => ly l + d) (site + d) (table + d) (key + d) flags
  = map (relocate d) (entry_of cfg ly site table key flags).
Proof.
  intros Hd. unfold entry_of, relocate. cbn [map e_section e_addr e_item].
  rewrite entry_addr_shift by exact Hd.
  set (a := entry_addr cfg table).
  replace (site + d - (a + d)) with (site - a) by lia.
  replace (ly l_yes + d - (a + d + 4)) with (ly l_yes - (a + 4)) by lia.
  replace (key + d + flags - (a + d + 8)) with (key + flags - (a + 8))
    by lia.
  replace (a + d + 4) with (a + 4 + d) by lia.
  replace (a + d + 8) with (a + 8 + d) by lia.
  reflexivity.
Qed.

(** C2, as the code has it: the record of a site is three fields at
    consecutive addresses from the aligned location counter, two of four
    bytes (site and label) and one of pointer width (key plus flag bits),
    [8 + ptr_bytes] bytes in all whatever the operands. Each field stores
    its target minus its own address, so that address plus stored value
    gives the target back in pointer arithmetic; and when site, label,
    key and table all move by the same multiple of the alignment the
    stored values stay the same: none is an absolute address. *)
Theorem jump_entry_self_relative (cfg : config) (ly : label -> Z)
  (site table key d : Z) (branch : bool) :
  links cfg ly site table ->
  d mod ptr_bytes cfg = 0 ->
  let a := entry_addr cfg table in
  let record flags :=
    [ Emitted "__jump_table" a (I_data 4 (site - a));
      Emitted "__jump_table" (a + 4) (I_data 4 (ly l_yes - (a + 4)));
      Emitted "__jump_table" (a + 8)
        (I_data (ptr_bytes cfg)
                (signed (ptr_bits cfg) (key + flags - (a + 8)))) ] in
  let f := arch_static_branch cfg key branch in
  let g := arch_static_branch_jump cfg key branch in
  jump_entry cfg ly site table f = Some (record (branch_flags cfg branch)) /\
  jump_entry cfg ly site table g = Some (record (Z.b2z branch)) /\
  (forall flags,
      map (fun e => item_size (e_item e)) (record flags)
      = [4; 4; ptr_bytes cfg]) /\
  (forall flags,
      map (rederive cfg) (record flags)
      = [ Some (wrap (ptr_bits cfg) site);
          Some (wrap (ptr_bits cfg) (ly l_yes));
          Some (wrap (ptr_bits cfg) (key + flags)) ]) /\
  jump_entry cfg (fun l => ly l + d) (site + d) (table + d)
    (arch_static_branch cfg (key + d) branch)
    = Some (map (relocate d) (record (branch_flags cfg branch))) /\
  jump_entry cfg (fun l => ly l + d) (site + d) (table + d)
    (arch_static_branch_jump cfg (key + d) branch)
    = Some (map (relocate d) (record (Z.b2z branch))).
Proof.
  intros Hl Hd a record f g.
  change record with (entry_of cfg ly site table key).
  pose proof (links_shift cfg ly site table d Hd Hl) as Hl'.
  split; [apply jump_entry_static_branch, Hl |].
  split; [apply jump_entry_static_branch_jump, Hl |].
  split; [reflexivity |].
  split; [apply rederive_entry_of |].
  rewrite <- !entry_of_shift by exact Hd.
  split; [apply jump_entry_static_branch, Hl' |].
  apply jump_entry_static_branch_jump, Hl'.
Qed.

Lemma jump_entry_self_relative_witness :
  jump_entry (Config false true) (fun _ => 0x1100) 0x1000 0x2003
    (arch_static_branch (Config false true) 0x3000 true)
  = Some [ Emitted "__jump_table" 0x2008 (I_data 4 (0x1000 - 0x2008));
           Emitted "__jump_table" 0x200c (I_data 4 (0x1100 - 0x200c));
           Emitted "__jump_table" 0x2010 (I_data 8 (0x3001 - 0x2010)) ] /\
  jump_entry (Config false true) (fun _ => 0x1100 + 0x100000)
    (0x1000 + 0x100000) (0x2003 + 0x100000)
    (arch_static_branch (Config false true) (0x3000 + 0x100000) true)
  = Some [ Emitted "__jump_table" 0x102008 (I_data 4 (0x1000 - 0x2008));
           Emitted "__jump_table" 0x10200c (I_data 4 (0x1100 - 0x200c));
           Emitted "__jump_table" 0x102010 (I_data 8 (0x3001 - 0x2010)) ].
Proof.
  assert (Hl : links (Config false true) (fun _ => 0x1100) 0x1000 0x2003)
    by (repeat split; vm_compute; reflexivity).
  assert (Hd : 0x100000 mod ptr_bytes (Config false true) = 0)
    by (vm_compute; reflexivity).
  pose proof (jump_entry_self_relative (Config false true) (fun _ => 0x1100)
                0x1000 0x2003 0x3000 0x100000 true Hl Hd) as H.
  cbv zeta in H. destruct H as (H1 & _ & _ & _ & H5 & _).
  split; [exact H1 | exact H5].
Defined.

(** C2 as stated fails on a 64-bit build: the site and label fields of
    the record are four bytes wide, half a pointer. *)
Lemma jump_entry_fields_not_pointer_width :
  jump_entry (Config false true) (fun _ => 0x1100) 0x1000 0x2000
    (arch_static_branch (Config false true) 0x3000 true)
  = Some [ Emitted "__jump_table" 0x2000 (I_data 4 (-0x1000));
           Emitted "__jump_table" 0x2004 (I_data 4 (-0xf04));
           Emitted "__jump_table" 0x2008 (I_data 8 0xff9) ] /\
  ptr_bytes (Config false true) = 8 /\
  ~ pointer_width_fields (Config false true)
      [ Emitted "__jump_table" 0x2000 (I_data 4 (-0x1000));
        Emitted "__jump_table" 0x2004 (I_data 4 (-0xf04));
        Emitted "__jump_table" 0x2008 (I_data 8 0xff9) ].
Proof.
  split; [vm_compute; reflexivity |]. split; [reflexivity |].
  intros H. apply Forall_cons_1 in H. destruct H as [H _].
  vm_compute in H. discriminate.
Qed.

Lemma branch_flags_cases cfg branch :
  branch_flags cfg branch
  = if CONFIG_HAVE_JUMP_LABEL_HACK cfg then 2 + Z.b2z branch
    else Z.b2z branch.
Proof.
  unfold branch_flags.
  destruct (CONFIG_HAVE_JUMP_LABEL_HACK cfg), branch; reflexivity.
Qed.

(** The stored key word is the flags plus a multiple of four when key and
    record are aligned. *)
Lemma key_word_low_bits cfg table key flags :
  key mod 4 = 0 ->
  exists m,
    signed (ptr_bits cfg) (key + flags - (entry_addr cfg table + 8))
    = flags + m * 4.
Proof.
  intros Hk.
  apply Z.mod_divide in Hk; [| lia]. destruct Hk as [k ->].
  pose proof (entry_addr_aligned cfg table) as Ha.
  apply Z.mod_divide in Ha; [| destruct (ptr_bytes_cases cfg); lia].
  destruct Ha as [q Ha]. rewrite Ha.
  destruct (signed_congruent (ptr_bits cfg)
              (k * 4 + flags - (q * ptr_bytes cfg + 8))) as [c ->];
    [destruct (ptr_bits_cases cfg); lia |].
  unfold ptr_bits.
  destruct (ptr_bytes_cases cfg) as [-> | ->].
  - exists (k - q - 2 + c * 2 ^ 30).
    change (2 ^ (8 * 4)) with (2 ^ 30 * 4). ring.
  - exists (k - 2 * q - 2 + c * 2 ^ 62).
    change (2 ^ (8 * 8)) with (2 ^ 62 * 4). ring.
Qed.

Lemma land_3 (flags m : Z) : 0 <= flags < 4 -> Z.land (flags + m * 4) 3 = flags.
Proof.
  intros Hf. change 3 with (Z.ones 2). rewrite Z.land_ones by lia.
  change (2 ^ 2) with 4. rewrite Z.mod_add by lia. now apply Z.mod_small.
Qed.

Lemma land_1 (flags m : Z) : Z.land (flags + m * 4) 1 = flags mod 2.
Proof.
  change 1 with (Z.ones 1) at 1. rewrite Z.land_ones by lia.
  change (2 ^ 1) with 2.
  replace (flags + m * 4) with (flags + (2 * m) * 2) by lia.
  now rewrite Z.mod_add by lia.
Qed.

(** C3, as the code has it: the key field stores the key plus flag bits
    minus its own address. Bit 0 of the stored word is the polarity in
    every record. For [arch_static_branch] without
    [CONFIG_HAVE_JUMP_LABEL_HACK] and for [arch_static_branch_jump] it is
    the only bit added to the key; for [arch_static_branch] with the
    option bit 1 is set as well ([2 | branch]), so the two low bits hold
    [2 + branch]. *)
Theorem key_field_flags (cfg : config) (ly : label -> Z)
  (site table key : Z) (branch : bool) :
  links cfg ly site table ->
  key mod 4 = 0 ->
  let own := entry_addr cfg table + 8 in
  let f := arch_static_branch cfg key branch in
  let g := arch_static_branch_jump cfg key branch in
  exists (es_f es_g : list emitted) (v_f v_g : Z),
    jump_entry cfg ly site table f = Some es_f /\
    jump_entry cfg ly site table g = Some es_g /\
    key_field es_f = Some v_f /\
    key_field es_g = Some v_g /\
    wrap (ptr_bits cfg) (own + v_f)
      = wrap (ptr_bits cfg)
          (key + if CONFIG_HAVE_JUMP_LABEL_HACK cfg
                 then Z.lor 2 (Z.b2z branch) else Z.b2z branch) /\
    wrap (ptr_bits cfg) (own + v_g)
      = wrap (ptr_bits cfg) (key + Z.b2z branch) /\
    Z.land v_f 1 = Z.b2z branch /\
    Z.land v_g 1 = Z.b2z branch /\
    Z.land v_f 3 = (if CONFIG_HAVE_JUMP_LABEL_HACK cfg
                    then 2 + Z.b2z branch else Z.b2z branch) /\
    Z.land v_g 3 = Z.b2z branch.
Proof.
  intros Hl Hk own f g.
  destruct (jump_entry_static_branch cfg ly site table key branch Hl)
    as [_ Hf].
  destruct (jump_entry_static_branch_jump cfg ly site table key branch Hl)
    as [_ Hg].
  eexists _, _, _, _.
  split; [exact Hf |]. split; [exact Hg |].
  split; [reflexivity |]. split; [reflexivity |].
  assert (Hbits : 0 <= ptr_bits cfg) by (destruct (ptr_bits_cases cfg); lia).
  split.
  { rewrite wrap_add_signed by exact Hbits. unfold own, branch_flags.
    f_equal. lia. }
  split.
  { rewrite wrap_add_signed by exact Hbits. unfold own. f_equal. lia. }
  destruct (key_word_low_bits cfg table key (branch_flags cfg branch) Hk)
    as [mf ->].
  destruct (key_word_low_bits cfg table key (Z.b2z branch) Hk) as [mg ->].
  assert (Hff : 0 <= branch_flags cfg branch < 4)
    by (rewrite branch_flags_cases;
        destruct (CONFIG_HAVE_JUMP_LABEL_HACK cfg), branch; simpl; lia).
  assert (Hfg : 0 <= Z.b2z branch < 4) by (destruct branch; simpl; lia).
  rewrite !land_1, !land_3 by assumption.
  rewrite branch_flags_cases.
  destruct (CONFIG_HAVE_JUMP_LABEL_HACK cfg), branch; repeat split; reflexivity.
Qed.

Lemma key_field_flags_witness :
  exists (es_f es_g : list emitted) (v_f v_g : Z),
    jump_entry (Config true true) (fun _ => 0x1100) 0x1000 0x2000
      (arch_static_branch (Config true true) 0x3000 true) = Some es_f /\
    jump_entry (Config true true) (fun _ => 0x1100) 0x1000 0x2000
      (arch_static_branch_jump (Config true true) 0x3000 true) = Some es_g /\
    key_field es_f = Some v_f /\
    key_field es_g = Some v_g /\
    wrap 64 (0x2008 + v_f) = wrap 64 (0x3000 + 3) /\
    wrap 64 (0x2008 + v_g) = wrap 64 (0x3000 + 1) /\
    Z.land v_f 1 = 1 /\
    Z.land v_g 1 = 1 /\
    Z.land v_f 3 = 3 /\
    Z.land v_g 3 = 1.
Proof.
  apply (key_field_flags (Config true true) (fun _ => 0x1100)
           0x1000 0x2000 0x3000 true).
  - repeat split; vm_compute; reflexivity.
  - reflexivity.
Defined.

(** C3 as stated fails with [CONFIG_HAVE_JUMP_LABEL_HACK]: for a site of
    polarity [false] the key field of [arch_static_branch] stands for the
    key plus two, not for the key plus the polarity bit. *)
Lemma key_field_holds_second_bit :
  jump_entry (Config true true) (fun _ => 0x1100) 0x1000 0x2000
    (arch_static_branch (Config true true) 0x3000 false)
  = Some [ Emitted "__jump_table" 0x2000 (I_data 4 (0x1000 - 0x2000));
           Emitted "__jump_table" 0x2004 (I_data 4 (0x1100 - 0x2004));
           Emitted "__jump_table" 0x2008 (I_data 8 (0x3000 + 2 - 0x2008)) ] /\
  0x3000 + 2 - 0x2008 <> 0x3000 + Z.b2z false - 0x2008 /\
  Z.land (0x3000 + 2 - 0x2008) 3 = 2.
Proof.
  split; [vm_compute; reflexivity |].
  split; [vm_compute; discriminate | reflexivity].
Qed.
End JumpLabelFacts.

(** ** The oracle and the patch of a site *)

Section PatchFacts.
Import JumpLabel.

Lemma in_text_spec (mem : text) addr n :
  in_text mem addr n = true <->
  0 <= addr /\ addr + Z.of_nat n <= Z.of_nat (length mem).
Proof. unfold in_text. rewrite andb_true_iff, !Z.leb_le. tauto. Qed.

Lemma text_poke_length (mem mem' : text) addr bs :
  text_poke mem addr bs = Some mem' -> length mem' = length mem.
Proof.
  unfold text_poke. destruct (in_text mem addr (length bs)) eqn:Hin; [| easy].
  apply in_text_spec in Hin. intros [= <-].
  rewrite !length_app, length_take, length_drop. lia.
Qed.

Lemma text_poke_read (mem mem' : text) addr bs :
  text_poke mem addr bs = Some mem' ->
  read mem' addr (length bs) = Some bs.
Proof.
  intros Hp. pose proof (text_poke_length _ _ _ _ Hp) as Hlen.
  revert Hp. unfold text_poke, read.
  destruct (in_text mem addr (length bs)) eqn:Hin; [| easy].
  intros [= <-].
  assert (Hin' : in_text (take (Z.to_nat addr) mem ++ bs
                   ++ drop (Z.to_nat addr + length bs) mem) addr (length bs)
                 = true).
  { apply in_text_spec. apply in_text_spec in Hin. rewrite Hlen. exact Hin. }
  rewrite Hin'. f_equal. apply in_text_spec in Hin.
  rewrite drop_app_length'
    by (rewrite length_take; lia).
  now rewrite take_app_length.
Qed.

Lemma text_poke_outside (mem mem' : text) addr bs (i : nat) :
  text_poke mem addr bs = Some mem' ->
  (Z.of_nat i < addr \/ addr + Z.of_nat (length bs) <= Z.of_nat i) ->
  mem' !! i = mem !! i.
Proof.
  unfold text_poke. destruct (in_text mem addr (length bs)) eqn:Hin; [| easy].
  apply in_text_spec in Hin. intros [= <-] [Hlo | Hhi].
  - rewrite lookup_app_l by (rewrite length_take; lia).
    apply lookup_take_lt. lia.
  - rewrite lookup_app_r by (rewrite length_take; lia).
    rewrite lookup_app_r by (rewrite length_take; lia).
    rewrite lookup_drop, length_take. f_equal. lia.
Qed.

Lemma encode_length cfg e : length (encode cfg e) = 5%nat.
Proof.
  destruct e; [| reflexivity].
  unfold encode, BYTES_NOP5. now destruct (CONFIG_X86_64 cfg).
Qed.

Lemma entry_size_encode cfg (mem : text) site e :
  read mem site 5 = Some (encode cfg e) ->
  arch_jump_entry_size cfg mem site = Some 5.
Proof.
  intros Hr. unfold arch_jump_entry_size. rewrite Hr.
  destruct e as [| rel]; cbn [encode].
  - now rewrite bool_decide_eq_true_2.
  - destruct (bool_decide _); reflexivity.
Qed.

Lemma byte_mod (b r : Z) : 0 <= b < 256 -> (b + 256 * r) mod 256 = b.
Proof.
  intros Hb. replace (b + 256 * r) with (b + r * 256) by lia.
  rewrite Z.mod_add by lia. now apply Z.mod_small.
Qed.

Lemma byte_div (b r : Z) : 0 <= b < 256 -> (b + 256 * r) / 256 = r.
Proof.
  intros Hb. replace (b + 256 * r) with (b + r * 256) by lia.
  rewrite Z.div_add by lia. rewrite (Z.div_small b) by lia. lia.
Qed.

Lemma le_bytes_4 (b0 b1 b2 b3 : Z) :
  is_u8 b0 -> is_u8 b1 -> is_u8 b2 -> is_u8 b3 ->
  le_bytes 4 (wrap 32 (b0 + 256 * (b1 + 256 * (b2 + 256 * b3))))
  = [b0; b1; b2; b3].
Proof.
  unfold is_u8, in_range. change (2 ^ 8) with 256. intros H0 H1 H2 H3.
  rewrite wrap_small by (unfold in_range; change (2 ^ 32) with 4294967296; lia).
  cbn [le_bytes].
  rewrite !byte_div, !byte_mod by assumption.
  now rewrite (Z.mod_small b3) by lia.
Qed.

Lemma entry_size_recognised cfg (mem : text) site n :
  Forall is_u8 mem ->
  arch_jump_entry_size cfg mem site = Some n ->
  exists e, read mem site (length (encode cfg e)) = Some (encode cfg e).
Proof.
  intros Hmem. unfold arch_jump_entry_size.
  destruct (read mem site 5) as [bs |] eqn:Hr; [| easy].
  destruct (bool_decide_reflect (bs = BYTES_NOP5 cfg)) as [-> | Hne].
  - intros _. exists Padding. now rewrite encode_length.
  - destruct bs as [| op bs]; [easy |].
    destruct (Z.eqb_spec op JMP32_INSN_OPCODE) as [-> | ?]; [| easy].
    intros _.
    assert (Hbs : Forall is_u8 bs /\ length bs = 4%nat).
    { revert Hr. unfold read.
      destruct (in_text mem site 5) eqn:Hin; [| easy].
      apply in_text_spec in Hin. intros [= Hr]. split.
      - apply (Forall_cons_1 is_u8 JMP32_INSN_OPCODE). rewrite <- Hr.
        apply Forall_take, Forall_drop, Hmem.
      - apply (f_equal length) in Hr.
        rewrite length_take, length_drop in Hr. cbn [length] in Hr.
        change (Z.of_nat 5) with 5 in Hin. lia. }
    destruct Hbs as [Hb Hl].
    destruct bs as [| b0 [| b1 [| b2 [| b3 [| ? ?]]]]]; try discriminate.
    inversion Hb as [| ? ? H0 Hb1]; subst.
    inversion Hb1 as [| ? ? H1 Hb2]; subst.
    inversion Hb2 as [| ? ? H2 Hb3]; subst.
    inversion Hb3 as [| ? ? H3 _]; subst.
    exists (Transfer (b0 + 256 * (b1 + 256 * (b2 + 256 * b3)))).
    rewrite encode_length. cbn [encode].
    now rewrite le_bytes_4.
Qed.

Lemma patch_site_poke cfg (mem mem' : text) site e :
  patch_site cfg mem site e = Some mem' ->
  text_poke mem site (encode cfg e) = Some mem'.
Proof.
  unfold patch_site.
  destruct (arch_jump_entry_size cfg mem site) as [n |]; [| easy].
  destruct (n =? _); easy.
Qed.

Lemma patch_site_read cfg (mem mem' : text) site e :
  patch_site cfg mem site e = Some mem' ->
  read mem' site 5 = Some (encode cfg e).
Proof.
  intros Hp. apply patch_site_poke, text_poke_read in Hp.
  now rewrite encode_length in Hp.
Qed.

(** C6: once a patch has installed encoding [e] at a site, the oracle
    gives the byte length of [e] there; and on text whose bytes at a site
    are those of neither encoding, the oracle fails. *)
Theorem entry_size_after_patch (cfg : config) (mem mem' : text) (site : Z)
  (e : encoding) (other : text) (site' : Z) :
  patch_site cfg mem site e = Some mem' ->
  Forall is_u8 other ->
  (forall e', read other site' (length (encode cfg e'))
              <> Some (encode cfg e')) ->
  arch_jump_entry_size cfg mem' site
    = Some (Z.of_nat (length (encode cfg e))) /\
  arch_jump_entry_size cfg other site' = None.
Proof.
  intros Hp Hbytes Hnone. split.
  - rewrite encode_length.
    apply (entry_size_encode cfg mem' site e), (patch_site_read _ mem), Hp.
  - destruct (arch_jump_entry_size cfg other site') as [n |] eqn:Hn;
      [| reflexivity].
    destruct (entry_size_recognised cfg other site' n Hbytes Hn) as [e' He'].
    now destruct (Hnone e').
Qed.

Lemma entry_size_after_patch_witness :
  arch_jump_entry_size (Config false true)
    [0x90; 0xe9; 0x0b; 0x00; 0x00; 0x00; 0xc3] 1 = Some 5 /\
  arch_jump_entry_size (Config false true)
    [0x90; 0xcc; 0x1f; 0x44; 0x00; 0x00; 0xc3] 1 = None.
Proof.
  apply (entry_size_after_patch (Config false true)
           [0x90; 0x0f; 0x1f; 0x44; 0x00; 0x00; 0xc3]
           [0x90; 0xe9; 0x0b; 0x00; 0x00; 0x00; 0xc3] 1 (Transfer 11)
           [0x90; 0xcc; 0x1f; 0x44; 0x00; 0x00; 0xc3] 1).
  - vm_compute. reflexivity.
  - repeat constructor; vm_compute; congruence.
  - intros e'. rewrite encode_length.
    change (read [0x90; 0xcc; 0x1f; 0x44; 0x00; 0x00; 0xc3] 1 5)
      with (Some [0xcc; 0x1f; 0x44; 0x00; 0x00]).
    destruct e' as [| rel]; cbn [encode].
    + vm_compute. discriminate.
    + unfold JMP32_INSN_OPCODE. intros [= Hop _].
Defined.

(** C4: without [CONFIG_HAVE_JUMP_LABEL_HACK] the site of
    [arch_static_branch] is compiled as the padding, five bytes long like
    the [jmp rel32] that replaces it; a patch of a site in either
    direction leaves the length of the text and every byte outside the
    five of the site as they were, and the site holds the new encoding. *)
Theorem nop5_matches_jmp32 (cfg : config) (ly : label -> Z)
  (site table key : Z) (branch : bool)
  (mem mem' : text) (addr target : Z) (enabled : bool) :
  CONFIG_HAVE_JUMP_LABEL_HACK cfg = false ->
  links cfg ly site table ->
  patch_site cfg mem addr (site_encoding addr target enabled) = Some mem' ->
  compiled_site cfg ly site table (arch_static_branch cfg key branch)
    = Some [I_bytes (encode cfg Padding)] /\
  length (encode cfg Padding) = 5%nat /\
  length (encode cfg (Transfer (target - (addr + 5))))
    = length (encode cfg Padding) /\
  length mem' = length mem /\
  (forall i : nat,
      Z.of_nat i < addr \/ addr + 5 <= Z.of_nat i -> mem' !! i = mem !! i) /\
  read mem' addr 5 = Some (encode cfg (site_encoding addr target enabled)).
Proof.
  intros Hhack Hl Hp.
  destruct (jump_entry_static_branch cfg ly site table key branch Hl)
    as [Hsite _].
  unfold site_item in Hsite. rewrite Hhack in Hsite.
  split; [exact Hsite |].
  split; [apply encode_length |].
  split; [now rewrite !encode_length |].
  pose proof (patch_site_poke _ _ _ _ _ Hp) as Hpoke.
  split; [eapply text_poke_length, Hpoke |].
  split; [| eapply patch_site_read, Hp].
  intros i Hi. eapply text_poke_outside; [exact Hpoke |].
  rewrite encode_length. exact Hi.
Qed.

Lemma nop5_matches_jmp32_witness :
  compiled_site (Config false true) (fun _ => 0x1100) 0x1000 0x2000
    (arch_static_branch (Config false true) 0x3000 true)
    = Some [I_bytes [0x0f; 0x1f; 0x44; 0x00; 0x00]] /\
  length (encode (Config false true) Padding) = 5%nat /\
  length (encode (Config false true) (Transfer (12 - (1 + 5))))
    = length (encode (Config false true) Padding) /\
  length [0x90; 0xe9; 0x06; 0x00; 0x00; 0x00; 0xc3]
    = length [0x90; 0x0f; 0x1f; 0x44; 0x00; 0x00; 0xc3] /\
  (forall i : nat,
      Z.of_nat i < 1 \/ 1 + 5 <= Z.of_nat i ->
      [0x90; 0xe9; 0x06; 0x00; 0x00; 0x00; 0xc3] !! i
      = [0x90; 0x0f; 0x1f; 0x44; 0x00; 0x00; 0xc3] !! i) /\
  read [0x90; 0xe9; 0x06; 0x00; 0x00; 0x00; 0xc3] 1 5
    = Some (encode (Config false true) (site_encoding 1 12 true)).
Proof.
  apply (nop5_matches_jmp32 (Config false true) (fun _ => 0x1100)
           0x1000 0x2000 0x3000 true
           [0x90; 0x0f; 0x1f; 0x44; 0x00; 0x00; 0xc3]
           [0x90; 0xe9; 0x06; 0x00; 0x00; 0x00; 0xc3] 1 12 true).
  - reflexivity.
  - repeat split; vm_compute; reflexivity.
  - vm_compute. reflexivity.
Defined.
End PatchFacts.
